(** * Formulate typings: the declaration surface of [index.d.ts]

    The repository is one ambient declaration file.  Its "program" is a set
    of type aliases and one interface, [Context].  The development embeds
    - the fragment of the TypeScript type language the file uses ([ty]),
    - the JavaScript values those types classify ([val]),
    - the assignability check of a value against a type ([conforms]),
    and then transcribes every declaration of the namespace [Formulate]
    as a definition of the same name. *)

From Stdlib Require Import List String Bool ZArith.
From Stdlib Require Import Floats.
Import ListNotations.
Open Scope string_scope.

Set Warnings "-register-all".

(** ** Types *)

(** The type expressions of the file.  A property of an object type is its
    name, whether it carries the optional marker [?], and its type.  No
    property of [index.d.ts] carries the marker; the flag is there so that
    "optional" can be said at all.  [TNamed] keeps the name under which an
    alias is referred to next to the type it stands for. *)
Inductive ty : Type :=
| TAny
| TNever
| TNull
| TString
| TNumber
| TBoolean
| TStrLit (s : string)                       (* 'GET' *)
| TBoolLit (b : bool)                        (* true, false *)
| TUnion (a b : ty)                          (* a | b *)
| TInter (a b : ty)                          (* a & b *)
| TArray (elem : ty)                         (* Array<elem>, elem[] *)
| TObject (props : list (string * bool * ty)) (* { k: t; k?: t } *)
| TIndex (elem : ty)                         (* { [key:string]: elem } *)
| TPromise (res : ty)                        (* Promise<res> *)
| TNamed (name : string) (body : ty).        (* reference to an alias *)

(** ** Values *)

Inductive val : Type :=
| VUndefined
| VNull
| VBool (b : bool)
| VNum (n : float)
| VStr (s : string)
| VArr (elems : list val)
| VObj (props : list (string * val))
| VPromise (resolved : val).                 (* a promise fulfilled with [resolved] *)

Fixpoint assoc {A : Type} (k : string) (l : list (string * A)) : option A :=
  match l with
  | [] => None
  | (k', x) :: r => if String.eqb k k' then Some x else assoc k r
  end.

(** Property read [v.k]; [None] stands for an absent property.  Only the
    named properties of object literals are modelled: an array has none of
    the names the file declares. *)
Definition get (k : string) (v : val) : option val :=
  match v with
  | VObj ps => assoc k ps
  | _ => None
  end.

Definition is_undefined (v : val) : bool :=
  match v with VUndefined => true | _ => false end.

Fixpoint conforms (t : ty) (v : val) {struct t} : bool :=
  match t with
  | TAny => true
  | TNever => false
  | TNull => match v with VNull => true | _ => false end
  | TString => match v with VStr _ => true | _ => false end
  | TNumber => match v with VNum _ => true | _ => false end
  | TBoolean => match v with VBool _ => true | _ => false end
  | TStrLit s => match v with VStr s' => String.eqb s s' | _ => false end
  | TBoolLit b => match v with VBool b' => Bool.eqb b b' | _ => false end
  | TUnion a b => conforms a v || conforms b v
  | TInter a b => conforms a v && conforms b v
  | TArray e => match v with VArr l => forallb (conforms e) l | _ => false end
  | TObject fs =>
      match v with
      | VObj ps =>
          (fix props_ok (fs : list (string * bool * ty)) : bool :=
             match fs with
             | [] => true
             | (k, opt, ft) :: r =>
                 match assoc k ps with
                 | Some x => conforms ft x || (opt && is_undefined x)
                 | None => opt
                 end && props_ok r
             end) fs
      | _ => false
      end
  | TIndex e =>
      match v with
      | VObj ps => forallb (fun p => conforms e (snd p)) ps
      | _ => false
      end
  | TPromise r => match v with VPromise x => conforms r x | _ => false end
  | TNamed _ body => conforms body v
  end.

(** Names of the aliases a type refers to, directly or through the body
    of another alias. *)
Fixpoint mentions (n : string) (t : ty) {struct t} : bool :=
  match t with
  | TNamed m body => String.eqb n m || mentions n body
  | TUnion a b | TInter a b => mentions n a || mentions n b
  | TArray e | TIndex e | TPromise e => mentions n e
  | TObject fs =>
      (fix in_props (fs : list (string * bool * ty)) : bool :=
         match fs with
         | [] => false
         | (_, _, ft) :: r => mentions n ft || in_props r
         end) fs
  | _ => false
  end.

(** The declaration of property [k] in an object type, looked up through
    aliases and intersections: its optional marker and its type. *)
Fixpoint prop_decl (k : string) (t : ty) {struct t} : option (bool * ty) :=
  match t with
  | TNamed _ body => prop_decl k body
  | TInter a b =>
      match prop_decl k a with
      | Some d => Some d
      | None => prop_decl k b
      end
  | TObject fs =>
      (fix find (fs : list (string * bool * ty)) : option (bool * ty) :=
         match fs with
         | [] => None
         | (k', opt, ft) :: r => if String.eqb k k' then Some (opt, ft) else find r
         end) fs
  | _ => None
  end.

(** [T extends true]: every value of [T] is the value [true].  An
    intersection is tested as it is written, factor by factor; the
    reduction the checker applies to an intersection beforehand (to
    [never], [boolean] or [any]) is not modelled. *)
Fixpoint extends_true (T : ty) : bool :=
  match T with
  | TNever => true
  | TBoolLit b => b
  | TUnion a b => extends_true a && extends_true b
  | TInter a b => extends_true a || extends_true b
  | TNamed _ body => extends_true body
  | _ => false
  end.


(** ** Signatures *)

Record Method : Type := {
  params : list (string * ty);        (* named parameters, in order *)
  rest : option (string * ty);        (* a trailing [...args: t] *)
  result : ty
}.

Inductive Signature : Type :=
| Plain (m : Method)
| Generic (constraint : ty) (m : ty -> Method).   (* <T extends constraint> *)

Definition instantiate (s : Signature) (T : ty) : Method :=
  match s with
  | Plain m => m
  | Generic _ m => m T
  end.

Definition param_type (k : string) (m : Method) : option ty := assoc k (params m).

Definition method_mentions (n : string) (m : Method) : bool :=
  existsb (fun p => mentions n (snd p)) (params m)
  || match rest m with Some p => mentions n (snd p) | None => false end
  || mentions n (result m).

(** A required property [k: t;]. *)
Definition req (k : string) (t : ty) : string * bool * ty := (k, false, t).

(** ** The namespace [Formulate] of [index.d.ts] *)

Module Formulate.

Definition Headers : ty := TNamed "Headers" (TIndex TString).

Definition FetchOptions : ty :=
  TNamed "FetchOptions" (TObject [
    req "method" (TUnion (TStrLit "GET") (TUnion (TStrLit "POST")
                 (TUnion (TStrLit "OPTIONS") (TUnion (TStrLit "PUT") (TStrLit "DELETE")))));
    req "headers" Headers;
    req "body" TString;
    req "redirect" (TUnion (TStrLit "follow") (TUnion (TStrLit "error") (TStrLit "manual")));
    req "referrer" TString;
    req "integrity" TString ]).

Definition Response : ty :=
  TNamed "Response" (TObject [
    req "text" TString;
    req "headers" Headers;
    req "url" TString;
    req "ok" TBoolean;
    req "redirected" TBoolean;
    req "status" TNumber;
    req "statusText" TString;
    req "type" TString ]).

Definition Choice : ty :=
  TNamed "Choice" (TObject [
    req "label" TString;
    req "value" TString;
    req "image" TString ]).

(** [type OneOrMoreChoices<T> = T extends true ? Choice : Choice[]].
    The checked type is a bare type parameter, so the conditional
    distributes over a union argument ([boolean] being [true | false]);
    [any] selects both branches and [never] none.  An intersection
    argument is taken as written (see [extends_true]): what is proved of
    every argument of [select] and [multi] is proved of the arguments
    written without [&]. *)
Fixpoint OneOrMoreChoices (T : ty) : ty :=
  match T with
  | TNever => TNever
  | TAny | TBoolean => TUnion Choice (TArray Choice)
  | TUnion a b => TUnion (OneOrMoreChoices a) (OneOrMoreChoices b)
  | TNamed _ body => OneOrMoreChoices body
  | _ => if extends_true T then Choice else TArray Choice
  end.

Definition PaymentLineItem : ty :=
  TNamed "PaymentLineItem" (TObject [
    req "amount" TNumber;
    req "name" TString;
    req "description" TString;
    req "quantity" TString;
    req "imageUrls" (TArray TString) ]).

Definition PaymentStatus : ty :=
  TNamed "PaymentStatus" (TObject [
    req "status" (TUnion (TStrLit "successful")
                 (TUnion (TStrLit "stripe-not-set-up") (TStrLit "failed")));
    req "id" TString;
    req "lineItems" (TArray PaymentLineItem) ]).

Definition BannerOptions : ty :=
  TNamed "BannerOptions" (TObject [
    req "unsplash" TString;
    req "full" TString;
    req "imageUrl" TString;
    req "videoUrl" TString ]).

Definition Options : ty :=
  TNamed "Options" (TObject [
    req "description" TBoolean;
    req "ignore" TBoolean;
    req "banner" BannerOptions;
    req "name" TString;
    req "optional" TBoolean ]).

Definition ShortOptions : ty :=
  TNamed "ShortOptions" (TInter Options (TObject [
    req "email" TBoolean;
    req "tel" TBoolean;
    req "url" TBoolean;
    req "value" TBoolean ])).

Definition LongOptions : ty :=
  TNamed "LongOptions" (TInter Options (TObject [
    req "value" TBoolean ])).

Definition RatingOptions : ty :=
  TNamed "RatingOptions" (TInter Options (TObject [
    req "max" TBoolean ])).

Definition SelectOptions (T : ty) : ty :=
  TNamed "SelectOptions" (TInter Options (TObject [
    req "single" T ])).

Definition MultiOptions (T : ty) : ty :=
  TNamed "MultiOptions" (TInter Options (TObject [
    req "single" T;
    req "hideNumbers" TBoolean ])).

Definition PaymentOptions : ty :=
  TNamed "PaymentOptions" (TInter Options (TObject [
    req "currency" TString;
    req "items" (TArray PaymentLineItem) ])).

(** *** [interface Context] *)

Definition short : Method :=
  {| params := [("question", TString); ("options", ShortOptions)];
     rest := None; result := TPromise TString |}.

Definition long : Method :=
  {| params := [("question", TString); ("options", ShortOptions)];
     rest := None; result := TPromise TString |}.

Definition rating : Method :=
  {| params := [("question", TString); ("options", RatingOptions)];
     rest := None; result := TPromise TString |}.

Definition select (T : ty) : Method :=
  {| params := [("question", TString);
                ("choices", TArray (TUnion TString Choice));
                ("options", SelectOptions T)];
     rest := None; result := TPromise (OneOrMoreChoices T) |}.

Definition multi (T : ty) : Method :=
  {| params := [("question", TString);
                ("choices", TArray (TUnion TString Choice));
                ("options", MultiOptions T)];
     rest := None; result := TPromise (OneOrMoreChoices T) |}.

Definition payment : Method :=
  {| params := [("question", TString); ("options", PaymentOptions)];
     rest := None; result := TPromise PaymentStatus |}.

Definition hidden : Method :=
  {| params := [("question", TString); ("answer", TString); ("options", Options)];
     rest := None; result := TPromise TString |}.

Definition statement : Method :=
  {| params := [("statement", TString); ("options", Options)];
     rest := None; result := TPromise TNull |}.

Definition fetch : Method :=
  {| params := [("resource", TString); ("options", FetchOptions)];
     rest := None; result := TPromise Response |}.

Definition log : Method :=
  {| params := []; rest := Some ("args", TAny); result := TNull |}.

Definition error : Method :=
  {| params := []; rest := Some ("args", TAny); result := TNull |}.

Definition interpolate : Method :=
  {| params := [("answer", TAny)]; rest := None; result := TString |}.

Definition interp : Method :=
  {| params := [("answer", TAny)]; rest := None; result := TString |}.

Definition i : Method :=
  {| params := [("answer", TAny)]; rest := None; result := TString |}.

Definition param : Method :=
  {| params := [("key", TString)]; rest := None; result := TUnion TString TNull |}.

Definition Context : list (string * Signature) := [
  ("short", Plain short);
  ("long", Plain long);
  ("rating", Plain rating);
  ("select", Generic TBoolean select);
  ("multi", Generic TBoolean multi);
  ("payment", Plain payment);
  ("hidden", Plain hidden);
  ("statement", Plain statement);
  ("fetch", Plain fetch);
  ("log", Plain log);
  ("error", Plain error);
  ("interpolate", Plain interpolate);
  ("interp", Plain interp);
  ("i", Plain i);
  ("param", Plain param) ].

End Formulate.

(** [declare global]: the three bindings of the one interface. *)
Module Global.
Definition f : list (string * Signature) := Formulate.Context.
Definition form : list (string * Signature) := Formulate.Context.
Definition formulate : list (string * Signature) := Formulate.Context.
End Global.

Import Formulate.

(** ** Operations on values and the values used in the statements *)

Definition prop_ok (ps : list (string * val)) (p : string * bool * ty) : bool :=
  let '(k, opt, ft) := p in
  match assoc k ps with
  | Some x => conforms ft x || (opt && is_undefined x)
  | None => opt
  end.

(** Object spread [{ ...base, ...more }]: the later properties win. *)
Definition spread (base more : val) : val :=
  match base, more with
  | VObj ps, VObj qs => VObj (qs ++ ps)
  | _, _ => more
  end.

(** [delete v.k]. *)
Definition omit (k : string) (v : val) : val :=
  match v with
  | VObj ps => VObj (filter (fun p => negb (String.eqb k (fst p))) ps)
  | _ => v
  end.

(** The comment on [PaymentLineItem.amount] speaks of "a non-negative
    integer in cents"; on a double that is the following test. *)
Definition is_integer (n : float) : bool :=
  match Prim2SF n with
  | S754_zero _ => true
  | S754_finite _ m e => (0 <=? e)%Z || (Z.pos m mod 2 ^ (- e) =? 0)%Z
  | _ => false
  end.

Definition non_negative_integer (n : float) : bool :=
  PrimFloat.leb 0 n && is_integer n.

Definition a_banner : val :=
  VObj [("unsplash", VStr "forest,lake"); ("full", VStr "true");
        ("imageUrl", VStr "https://example.org/a.png");
        ("videoUrl", VStr "https://example.org/a.mp4")].

Definition base_options : val :=
  VObj [("description", VBool true); ("ignore", VBool false);
        ("banner", a_banner); ("name", VStr "q1"); ("optional", VBool false)].

Definition short_options : val :=
  spread base_options
    (VObj [("email", VBool true); ("tel", VBool false); ("url", VBool false);
           ("value", VBool false)]).

(** A bag with exactly the properties of [LongOptions]. *)
Definition long_options : val :=
  spread base_options (VObj [("value", VBool false)]).

Definition select_options (single : bool) : val :=
  spread base_options (VObj [("single", VBool single)]).

Definition choice_red : val :=
  VObj [("label", VStr "Red"); ("value", VStr "red");
        ("image", VStr "https://example.org/red.png")].

Definition choice_without_image : val :=
  VObj [("label", VStr "Red"); ("value", VStr "red")].

Definition line_item (amount : float) : val :=
  VObj [("amount", VNum amount); ("name", VStr "Ticket");
        ("description", VStr "One seat"); ("quantity", VStr "1");
        ("imageUrls", VArr [VStr "https://example.org/t.png"])].

Definition payment_options (items : list val) : val :=
  spread base_options (VObj [("currency", VStr "usd"); ("items", VArr items)]).

Definition payment_status (status : string) (items : list val) : val :=
  VObj [("status", VStr status); ("id", VStr "pi_1"); ("lineItems", VArr items)].

Definition fetch_options (method redirect : string) : val :=
  VObj [("method", VStr method);
        ("headers", VObj [("Accept", VStr "text/plain")]);
        ("body", VStr "hello"); ("redirect", VStr redirect);
        ("referrer", VStr "about:client"); ("integrity", VStr "sha256-abc")].

Definition Options_names : list string :=
  ["description"; "ignore"; "banner"; "name"; "optional"].

(** ** Calls *)

(** Checking the argument list of a call against a signature.  No
    parameter of [index.d.ts] carries the optional marker, so every
    declared position must be filled; [...args: any] takes whatever is
    left, each argument at the element type [any]. *)
Fixpoint args_ok (ps : list (string * ty)) (variadic : option (string * ty))
    (args : list val) {struct ps} : bool :=
  match ps with
  | [] =>
      match variadic with
      | Some (_, t) => forallb (conforms t) args
      | None => match args with [] => true | _ :: _ => false end
      end
  | (_, t) :: ps' =>
      match args with
      | [] => false
      | a :: args' => conforms t a && args_ok ps' variadic args'
      end
  end.

Definition accepts (m : Method) (args : list val) : bool :=
  args_ok (params m) (rest m) args.


(** The operations that put a question or a statement before the user. *)
Definition question_names : list string :=
  ["short"; "long"; "rating"; "select"; "multi"; "payment"; "hidden"; "statement"].

(** The operations declared without [Promise]. *)
Definition sync_names : list string :=
  ["log"; "error"; "interpolate"; "interp"; "i"; "param"].

Definition multi_options (single : bool) : val :=
  spread base_options (VObj [("single", VBool single); ("hideNumbers", VBool true)]).

Definition rating_options : val :=
  spread base_options (VObj [("max", VBool true)]).

Definition a_response : val :=
  VObj [("text", VStr "pong");
        ("headers", VObj [("content-type", VStr "text/plain")]);
        ("url", VStr "https://example.org/ping");
        ("ok", VBool true); ("redirected", VBool false);
        ("status", VNum 200); ("statusText", VStr "OK"); ("type", VStr "basic")].

Definition nine_urls : list string :=
  ["u1"; "u2"; "u3"; "u4"; "u5"; "u6"; "u7"; "u8"; "u9"].

Definition FetchOptions_names : list string :=
  ["method"; "headers"; "body"; "redirect"; "referrer"; "integrity"].

Ltac in_props := cbn; auto 10.

(** [read lem in Hc as ipat]: apply the read-back lemma [lem] to the object
    type of the conformance hypothesis [Hc]. *)
Tactic Notation "read" constr(lem) "in" hyp(Hc) "as" simple_intropattern(ipat) :=
  edestruct lem as ipat; [| exact Hc |]; [in_props |].

Ltac split_andb :=
  repeat match goal with
         | H : _ && _ = true |- _ => apply andb_true_iff in H; destruct H
         end.

Ltac split_in H :=
  cbn in H;
  repeat match type of H with
         | _ \/ _ => destruct H as [H | H]
         end;
  [ inversion H; subst .. | contradiction H ].

(** ** Reading a conforming value *)

Lemma conforms_object (fs : list (string * bool * ty)) (ps : list (string * val)) :
  conforms (TObject fs) (VObj ps) = forallb (prop_ok ps) fs.
Proof.
  induction fs as [| [[k opt] ft] r IH]; [reflexivity |].
  cbn [forallb prop_ok]. rewrite <- IH. reflexivity.
Qed.

Lemma conforms_object_inv (fs : list (string * bool * ty)) (v : val) :
  conforms (TObject fs) v = true -> exists ps, v = VObj ps.
Proof. destruct v; cbn; try discriminate. eauto. Qed.

Lemma conforms_req (k : string) (t : ty) (fs : list (string * bool * ty)) (v : val) :
  In (req k t) fs -> conforms (TObject fs) v = true ->
  exists x, get k v = Some x /\ conforms t x = true.
Proof.
  intros Hin Hc. destruct (conforms_object_inv _ _ Hc) as [ps ->].
  rewrite conforms_object, forallb_forall in Hc.
  specialize (Hc _ Hin). unfold req, prop_ok in Hc. cbn [get].
  destruct (assoc k ps) as [x |]; [| discriminate].
  exists x. split; [reflexivity |].
  now rewrite andb_false_l, orb_false_r in Hc.
Qed.

Lemma missing_req (k : string) (t : ty) (fs : list (string * bool * ty)) (v : val) :
  In (req k t) fs -> get k v = None -> conforms (TObject fs) v = false.
Proof.
  intros Hin Hg. destruct (conforms (TObject fs) v) eqn:Hc; [| reflexivity].
  destruct (conforms_req _ _ _ _ Hin Hc) as (x & Hx & _). congruence.
Qed.

Lemma conforms_boolean (x : val) : conforms TBoolean x = true -> exists b, x = VBool b.
Proof. destruct x; cbn; try discriminate. eauto. Qed.

Lemma conforms_string (x : val) : conforms TString x = true -> exists s, x = VStr s.
Proof. destruct x; cbn; try discriminate. eauto. Qed.

Lemma conforms_number (x : val) : conforms TNumber x = true -> exists n, x = VNum n.
Proof. destruct x; cbn; try discriminate. eauto. Qed.

Lemma conforms_strlit (s : string) (x : val) : conforms (TStrLit s) x = true -> x = VStr s.
Proof.
  destruct x; cbn; try discriminate. intros H. apply String.eqb_eq in H. now subst.
Qed.

Lemma conforms_boollit (b : bool) (x : val) : conforms (TBoolLit b) x = true -> x = VBool b.
Proof.
  destruct x; cbn; try discriminate. intros H. apply Bool.eqb_prop in H. now subst.
Qed.

Lemma conforms_array (e : ty) (x : val) :
  conforms (TArray e) x = true ->
  exists xs, x = VArr xs /\ Forall (fun c => conforms e c = true) xs.
Proof.
  destruct x; cbn; try discriminate. intros H.
  eexists; split; [reflexivity |]. now apply Forall_forall, forallb_forall.
Qed.

Lemma conforms_promise (r : ty) (x : val) :
  conforms (TPromise r) x = true -> exists y, x = VPromise y /\ conforms r y = true.
Proof. destruct x; cbn; try discriminate. eauto. Qed.

Lemma conforms_union (a b : ty) (x : val) :
  conforms (TUnion a b) x = true -> conforms a x = true \/ conforms b x = true.
Proof. cbn. apply orb_true_iff. Qed.

Lemma conforms_inter (a b : ty) (x : val) :
  conforms (TInter a b) x = true -> conforms a x = true /\ conforms b x = true.
Proof. cbn. apply andb_true_iff. Qed.

Lemma conforms_named (n : string) (body : ty) (x : val) :
  conforms (TNamed n body) x = conforms body x.
Proof. reflexivity. Qed.

(** A required property of declared type [boolean] / [string], read back. *)
Lemma get_req_boolean (k : string) (fs : list (string * bool * ty)) (v : val) :
  In (req k TBoolean) fs -> conforms (TObject fs) v = true ->
  exists b, get k v = Some (VBool b).
Proof.
  intros Hin Hc. destruct (conforms_req _ _ _ _ Hin Hc) as (x & Hg & Hx).
  destruct (conforms_boolean _ Hx) as [b ->]. eauto.
Qed.

Lemma get_req_string (k : string) (fs : list (string * bool * ty)) (v : val) :
  In (req k TString) fs -> conforms (TObject fs) v = true ->
  exists s, get k v = Some (VStr s).
Proof.
  intros Hin Hc. destruct (conforms_req _ _ _ _ Hin Hc) as (x & Hg & Hx).
  destruct (conforms_string _ Hx) as [s ->]. eauto.
Qed.

Lemma assoc_filter_out {A : Type} (k : string) (l : list (string * A)) :
  assoc k (filter (fun p => negb (String.eqb k (fst p))) l) = None.
Proof.
  induction l as [| [k' x] r IH]; [reflexivity |].
  cbn [filter fst]. destruct (String.eqb k k') eqn:E; cbn [negb]; [exact IH |].
  cbn [assoc]. now rewrite E.
Qed.

Lemma get_omit (k : string) (v : val) : get k (omit k v) = None.
Proof. destruct v; try reflexivity. cbn [omit get]. apply assoc_filter_out. Qed.

Lemma Options_description (v : val) :
  conforms Options v = true -> exists b, get "description" v = Some (VBool b).
Proof.
  unfold Options. rewrite conforms_named. apply get_req_boolean. cbn; auto.
Qed.

Lemma extension_description (n : string) (more : ty) (v : val) :
  conforms (TNamed n (TInter Options more)) v = true ->
  exists b, get "description" v = Some (VBool b).
Proof.
  rewrite conforms_named. intros H. apply conforms_inter in H. now apply Options_description.
Qed.

(** ** The claims *)

(** C2, as the declaration has it.  [Choice] declares [label], [value] and
    [image] alike, none with the optional marker: every [Choice] value
    carries all three as strings, and deleting [image] from a [Choice]
    leaves a value that is no longer one. *)
Theorem Choice_requires_image (v : val) :
  conforms Choice v = true ->
  prop_decl "label" Choice = Some (false, TString)
  /\ prop_decl "value" Choice = Some (false, TString)
  /\ prop_decl "image" Choice = Some (false, TString)
  /\ (exists l x i, get "label" v = Some (VStr l)
                    /\ get "value" v = Some (VStr x)
                    /\ get "image" v = Some (VStr i))
  /\ conforms Choice (omit "image" v) = false.
Proof.
  intros Hc. repeat (split; [reflexivity |]).
  unfold Choice in *. rewrite conforms_named in *. split.
  - read (get_req_string "label") in Hc as [l Hl].
    read (get_req_string "value") in Hc as [x Hx].
    read (get_req_string "image") in Hc as [i Hi].
    eauto 6.
  - apply (missing_req "image" TString); [cbn; auto 6 | apply get_omit].
Qed.

Lemma Choice_requires_image_witness :
  conforms Choice choice_red = true
  /\ exists l x i, get "label" choice_red = Some (VStr l)
                   /\ get "value" choice_red = Some (VStr x)
                   /\ get "image" choice_red = Some (VStr i).
Proof.
  split; [reflexivity |].
  exact (proj1 (proj2 (proj2 (proj2 (Choice_requires_image choice_red eq_refl))))).
Defined.

(** C2 as stated fails: the object that omits [image] is not a [Choice]. *)
Lemma Choice_without_image_rejected :
  get "label" choice_without_image = Some (VStr "Red")
  /\ get "value" choice_without_image = Some (VStr "red")
  /\ get "image" choice_without_image = None
  /\ conforms Choice choice_without_image = false.
Proof. repeat split. Qed.

(** C3, as the declaration has it.  Each of the five properties of
    [Options] is declared without the optional marker: an [Options] value
    carries all five with their declared types, and deleting any one of
    them leaves a value that is not an [Options]. *)
Theorem Options_requires_every_field (v : val) :
  conforms Options v = true ->
  (forall k, In k Options_names -> exists t, prop_decl k Options = Some (false, t))
  /\ (exists d i b n o,
         get "description" v = Some (VBool d)
         /\ get "ignore" v = Some (VBool i)
         /\ get "banner" v = Some b /\ conforms BannerOptions b = true
         /\ get "name" v = Some (VStr n)
         /\ get "optional" v = Some (VBool o))
  /\ (forall k, In k Options_names -> conforms Options (omit k v) = false).
Proof.
  intros Hc. split; [| split].
  - intros k Hk. split_in Hk; eexists; reflexivity.
  - unfold Options in Hc. rewrite conforms_named in Hc.
    read (get_req_boolean "description") in Hc as [d Hd].
    read (get_req_boolean "ignore") in Hc as [i Hi].
    read (conforms_req "banner" BannerOptions) in Hc as (b & Hb & Hbc).
    read (get_req_string "name") in Hc as [n Hn].
    read (get_req_boolean "optional") in Hc as [o Ho].
    exists d, i, b, n, o. auto 8.
  - intros k Hk. unfold Options. rewrite conforms_named.
    split_in Hk;
      match goal with
      | |- conforms (TObject ?fs) (omit ?k _) = false =>
          match fs with
          | context [req k ?t] =>
              apply (missing_req k t); [cbn; auto 8 | apply get_omit]
          end
      end.
Qed.

Lemma Options_requires_every_field_witness :
  conforms Options base_options = true
  /\ conforms Options (omit "optional" base_options) = false.
Proof.
  split; [reflexivity |].
  apply (proj2 (proj2 (Options_requires_every_field base_options eq_refl))).
  cbn; auto 8.
Defined.

(** C3 as stated fails: the empty bag, and a bag with one property only,
    are rejected where an [Options] is expected. *)
Lemma empty_Options_rejected :
  conforms Options (VObj []) = false
  /\ conforms Options (VObj [("optional", VBool true)]) = false
  /\ param_type "options" hidden = Some Options
  /\ param_type "options" statement = Some Options.
Proof. repeat split. Qed.

(** C10.  The [description] property of [Options] is declared [boolean];
    whatever operation of [Context] takes an [Options] bag or an extension
    of it, at whatever instantiation of its type parameter, the bag it
    accepts carries a boolean under [description], never a string. *)
Theorem description_is_boolean
    (name : string) (sig : Signature) (T : ty) (pname : string) (pty : ty) (v : val) :
  In (name, sig) Context ->
  In (pname, pty) (params (instantiate sig T)) ->
  mentions "Options" pty = true ->
  conforms pty v = true ->
  prop_decl "description" Options = Some (false, TBoolean)
  /\ (exists b, get "description" v = Some (VBool b))
  /\ forall s, get "description" v <> Some (VStr s).
Proof.
  intros Hop Hp Hm Hc. split; [reflexivity |].
  assert (Hb : exists b, get "description" v = Some (VBool b)).
  { split_in Hop; split_in Hp; cbn in Hm; try discriminate Hm;
      solve [ eapply extension_description; exact Hc
            | apply Options_description; exact Hc ]. }
  split; [exact Hb |]. destruct Hb as [b Hb]. intros s. rewrite Hb. discriminate.
Qed.

Lemma description_is_boolean_witness :
  exists b, get "description" short_options = Some (VBool b).
Proof.
  refine (proj1 (proj2 (description_is_boolean
            "short" (Plain short) TBoolean "options" ShortOptions short_options
            _ _ eq_refl eq_refl))).
  - cbn; auto.
  - cbn; auto.
Defined.

Lemma closed_union3 (a b c : string) (x : val) :
  conforms (TUnion (TStrLit a) (TUnion (TStrLit b) (TStrLit c))) x = true ->
  exists s, x = VStr s /\ In s [a; b; c].
Proof.
  intros H. apply conforms_union in H. destruct H as [H | H].
  { apply conforms_strlit in H. subst. eexists; split; [reflexivity | cbn; auto]. }
  apply conforms_union in H.
  destruct H as [H | H]; apply conforms_strlit in H; subst;
    (eexists; split; [reflexivity | cbn; auto]).
Qed.

(** C5.  [PaymentStatus] is what [payment] resolves to, and the [status]
    of a [PaymentStatus] value is one of the three strings of the
    declaration, nothing else. *)
Theorem PaymentStatus_status_closed (v : val) :
  conforms PaymentStatus v = true ->
  result payment = TPromise PaymentStatus
  /\ exists s, get "status" v = Some (VStr s)
               /\ (s = "successful" \/ s = "stripe-not-set-up" \/ s = "failed").
Proof.
  intros Hc. split; [reflexivity |].
  unfold PaymentStatus in Hc. rewrite conforms_named in Hc.
  read (conforms_req "status") in Hc as (x & Hx & Hu).
  apply closed_union3 in Hu. destruct Hu as (s & -> & Hs).
  exists s. split; [exact Hx |]. cbn in Hs. intuition auto.
Qed.

Lemma PaymentStatus_status_closed_witness :
  conforms PaymentStatus (payment_status "failed" [line_item 250]) = true
  /\ exists s, get "status" (payment_status "failed" [line_item 250]) = Some (VStr s)
               /\ (s = "successful" \/ s = "stripe-not-set-up" \/ s = "failed").
Proof.
  split; [reflexivity |].
  exact (proj2 (PaymentStatus_status_closed
                  (payment_status "failed" [line_item 250]) eq_refl)).
Defined.

(** C6.  [fetch] takes a [FetchOptions]; in a [FetchOptions] value [method]
    is one of the five request methods of the declaration and [redirect]
    one of its three modes. *)
Theorem FetchOptions_method_redirect_closed (v : val) :
  conforms FetchOptions v = true ->
  param_type "options" fetch = Some FetchOptions
  /\ (exists m, get "method" v = Some (VStr m)
                /\ In m ["GET"; "POST"; "OPTIONS"; "PUT"; "DELETE"])
  /\ (exists r, get "redirect" v = Some (VStr r)
                /\ In r ["follow"; "error"; "manual"]).
Proof.
  intros Hc. split; [reflexivity |].
  unfold FetchOptions in Hc. rewrite conforms_named in Hc. split.
  - read (conforms_req "method") in Hc as (x & Hx & Hu).
    apply conforms_union in Hu. destruct Hu as [Hu | Hu].
    { apply conforms_strlit in Hu. subst. eexists; split; [exact Hx | cbn; auto]. }
    apply conforms_union in Hu. destruct Hu as [Hu | Hu].
    { apply conforms_strlit in Hu. subst. eexists; split; [exact Hx | cbn; auto]. }
    apply closed_union3 in Hu. destruct Hu as (m & -> & Hm).
    exists m. split; [exact Hx |]. cbn in Hm |- *. intuition auto.
  - read (conforms_req "redirect") in Hc as (x & Hx & Hu).
    apply closed_union3 in Hu. destruct Hu as (r & -> & Hr). eauto.
Qed.

Lemma FetchOptions_method_redirect_closed_witness :
  conforms FetchOptions (fetch_options "PUT" "manual") = true
  /\ exists m, get "method" (fetch_options "PUT" "manual") = Some (VStr m)
               /\ In m ["GET"; "POST"; "OPTIONS"; "PUT"; "DELETE"].
Proof.
  split; [reflexivity |].
  exact (proj1 (proj2 (FetchOptions_method_redirect_closed
                         (fetch_options "PUT" "manual") eq_refl))).
Defined.




(** C9.  The [choices] parameter of [select] and of [multi] is the same
    array type, and it accepts every list whose elements are strings or
    [Choice] values, in any mixture. *)
Theorem choices_mix_strings_and_Choices (T : ty) (l : list val) :
  Forall (fun c => (exists s, c = VStr s) \/ conforms Choice c = true) l ->
  exists ct, param_type "choices" (select T) = Some ct
             /\ param_type "choices" (multi T) = Some ct
             /\ conforms ct (VArr l) = true.
Proof.
  intros Hl. exists (TArray (TUnion TString Choice)).
  repeat (split; [reflexivity |]).
  change (forallb (conforms (TUnion TString Choice)) l = true).
  apply forallb_forall. intros c Hc.
  change (conforms TString c || conforms Choice c = true).
  rewrite Forall_forall in Hl. destruct (Hl c Hc) as [[s ->] | H].
  - reflexivity.
  - rewrite H. apply orb_true_r.
Qed.

Lemma choices_mix_strings_and_Choices_witness :
  exists ct, param_type "choices" (select TBoolean) = Some ct
             /\ param_type "choices" (multi TBoolean) = Some ct
             /\ conforms ct (VArr [VStr "Blue"; choice_red; VStr "Green"]) = true.
Proof.
  apply (choices_mix_strings_and_Choices TBoolean [VStr "Blue"; choice_red; VStr "Green"]).
  repeat (apply Forall_cons;
          [first [left; eexists; reflexivity | right; reflexivity] |]).
  apply Forall_nil.
Defined.

Lemma mentions_Choice (n : string) : mentions n Choice = String.eqb n "Choice".
Proof. cbn. apply orb_false_r. Qed.

Lemma OneOrMoreChoices_mentions (n : string) (T : ty) :
  mentions n (OneOrMoreChoices T) = true -> n = "Choice".
Proof.
  assert (HC : mentions n Choice = true -> n = "Choice").
  { rewrite mentions_Choice. apply String.eqb_eq. }
  assert (HA : mentions n (TArray Choice) = true -> n = "Choice") by exact HC.
  assert (HU : mentions n (TUnion Choice (TArray Choice)) = true -> n = "Choice").
  { change (mentions n Choice || mentions n (TArray Choice) = true -> n = "Choice").
    intros H. apply orb_true_iff in H. tauto. }
  induction T; cbn [OneOrMoreChoices extends_true]; auto; try discriminate.
  - destruct b; auto.
  - change (mentions n (OneOrMoreChoices T1) || mentions n (OneOrMoreChoices T2) = true
            -> n = "Choice").
    intros H. apply orb_true_iff in H. tauto.
  - destruct (extends_true T1 || extends_true T2); auto.
Qed.

(** C8.  [long] is an operation of [Context] whose [options] parameter is
    declared [ShortOptions]: a bag passed to it carries the [email], [tel]
    and [url] booleans, and a bag with just the properties of [LongOptions]
    is rejected.  No operation of [Context] refers to [LongOptions] in a
    parameter or in its result, unless its own type argument does. *)
Theorem long_takes_ShortOptions (name : string) (sig : Signature) (T : ty) (v : val) :
  In (name, sig) Context ->
  mentions "LongOptions" T = false ->
  conforms ShortOptions v = true ->
  assoc "long" Context = Some (Plain long)
  /\ param_type "options" long = Some ShortOptions
  /\ mentions "LongOptions" ShortOptions = false
  /\ (exists e t u, get "email" v = Some (VBool e)
                    /\ get "tel" v = Some (VBool t)
                    /\ get "url" v = Some (VBool u))
  /\ method_mentions "LongOptions" (instantiate sig T) = false
  /\ conforms LongOptions long_options = true
  /\ conforms ShortOptions long_options = false.
Proof.
  intros Hop HT Hc. repeat (split; [reflexivity |]).
  split; [| split; [| split; reflexivity]].
  - unfold ShortOptions in Hc. rewrite conforms_named in Hc.
    apply conforms_inter in Hc. destruct Hc as [_ Hc].
    read (get_req_boolean "email") in Hc as [e He].
    read (get_req_boolean "tel") in Hc as [t Ht].
    read (get_req_boolean "url") in Hc as [u Hu].
    eauto 6.
  - assert (HR : mentions "LongOptions" (OneOrMoreChoices T) = false).
    { destruct (mentions "LongOptions" (OneOrMoreChoices T)) eqn:E; [| reflexivity].
      apply OneOrMoreChoices_mentions in E. discriminate E. }
    split_in Hop; try reflexivity;
      unfold method_mentions; cbn [instantiate select multi params rest result existsb snd];
      change (mentions "LongOptions" (TPromise (OneOrMoreChoices T)))
        with (mentions "LongOptions" (OneOrMoreChoices T));
      rewrite HR; cbn; rewrite HT; reflexivity.
Qed.

Lemma long_takes_ShortOptions_witness :
  (exists e t u, get "email" short_options = Some (VBool e)
                 /\ get "tel" short_options = Some (VBool t)
                 /\ get "url" short_options = Some (VBool u))
  /\ method_mentions "LongOptions" (select (TBoolLit true)) = false.
Proof.
  assert (Hin : In ("select", Generic TBoolean select) Context) by (cbn; auto 10).
  pose proof (long_takes_ShortOptions "select" (Generic TBoolean select) (TBoolLit true)
                short_options Hin eq_refl eq_refl) as H.
  exact (conj (proj1 (proj2 (proj2 (proj2 H))))
              (proj1 (proj2 (proj2 (proj2 (proj2 H)))))).
Defined.

(** The declared type of [amount] is [number] and nothing narrower: a
    [PaymentLineItem] value carries a number there, and the item stays a
    [PaymentLineItem] whatever number is written over its [amount]. *)
Theorem amount_is_any_number (v : val) (n : float) :
  conforms PaymentLineItem v = true ->
  prop_decl "amount" PaymentLineItem = Some (false, TNumber)
  /\ (exists m, get "amount" v = Some (VNum m))
  /\ conforms PaymentLineItem (spread v (VObj [("amount", VNum n)])) = true.
Proof.
  intros Hc. split; [reflexivity |].
  unfold PaymentLineItem in *. rewrite conforms_named in *. split.
  - read (conforms_req "amount") in Hc as (x & Hx & Hn).
    apply conforms_number in Hn. destruct Hn as [m ->]. eauto.
  - destruct (conforms_object_inv _ _ Hc) as [ps ->].
    cbn [spread app]. rewrite conforms_object in *.
    cbn in Hc |- *. apply andb_true_iff in Hc. apply Hc.
Qed.

Lemma amount_is_any_number_witness :
  conforms PaymentLineItem (line_item 1999) = true
  /\ conforms PaymentLineItem
       (spread (line_item 1999) (VObj [("amount", VNum (-0.5)%float)])) = true.
Proof.
  split; [reflexivity |].
  exact (proj2 (proj2 (amount_is_any_number (line_item 1999) (-0.5)%float eq_refl))).
Defined.

(** C7.  The comment on [amount] asks for "a non-negative integer in
    cents"; the declaration does not hold the field to it.  A line item
    whose [amount] is negative, and one whose [amount] is fractional, are
    [PaymentLineItem] values, accepted in [PaymentOptions.items] and in
    [PaymentStatus.lineItems]. *)
Lemma negative_or_fractional_amount_admitted :
  conforms PaymentLineItem (line_item (-1)%float) = true
  /\ get "amount" (line_item (-1)%float) = Some (VNum (-1)%float)
  /\ PrimFloat.ltb (-1)%float 0%float = true
  /\ non_negative_integer (-1)%float = false
  /\ conforms PaymentLineItem (line_item 0.5%float) = true
  /\ get "amount" (line_item 0.5%float) = Some (VNum 0.5%float)
  /\ is_integer 0.5%float = false
  /\ non_negative_integer 0.5%float = false
  /\ conforms PaymentOptions (payment_options [line_item (-1)%float]) = true
  /\ conforms PaymentStatus (payment_status "successful" [line_item 0.5%float]) = true.
Proof. repeat split; vm_compute; reflexivity. Qed.

(** ** Further properties of the declarations *)

Lemma conforms_fewer_props (fs fs' : list (string * bool * ty)) (v : val) :
  incl fs' fs -> conforms (TObject fs) v = true -> conforms (TObject fs') v = true.
Proof.
  intros Hi Hc. destruct (conforms_object_inv _ _ Hc) as [ps ->].
  rewrite conforms_object, forallb_forall in *. auto.
Qed.

Lemma extension_is_Options (n : string) (more : ty) (v : val) :
  conforms (TNamed n (TInter Options more)) v = true -> conforms Options v = true.
Proof. rewrite conforms_named. intros H. now apply conforms_inter in H. Qed.

Lemma assoc_In {A : Type} (k : string) (x : A) (l : list (string * A)) :
  assoc k l = Some x -> In (k, x) l.
Proof.
  induction l as [| [k' y] r IH]; cbn [assoc]; [discriminate |].
  destruct (String.eqb k k') eqn:E.
  - apply String.eqb_eq in E. subst. intros [= ->]. now left.
  - intros H. right. auto.
Qed.

Lemma strings_conform (l : list string) : forallb (conforms TString) (map VStr l) = true.
Proof. induction l; cbn [map forallb]; [reflexivity | exact IHl]. Qed.

Lemma args_ok_length (ps : list (string * ty)) (args : list val) :
  args_ok ps None args = true -> List.length args = List.length ps.
Proof.
  revert args. induction ps as [| [k t] ps IH]; intros [| a args]; cbn [args_ok List.length];
    try discriminate; [reflexivity |].
  intros H. apply andb_true_iff in H. f_equal. now apply IH.
Qed.

Lemma args_ok_nth (ps : list (string * ty)) (variadic : option (string * ty))
    (args : list val) (n : nat) (k : string) (t : ty) :
  args_ok ps variadic args = true -> nth_error ps n = Some (k, t) ->
  exists a, nth_error args n = Some a /\ conforms t a = true.
Proof.
  revert args n. induction ps as [| [k' t'] ps IH]; intros args n Hok Hn.
  - destruct n; discriminate Hn.
  - destruct args as [| a args]; [discriminate Hok |].
    cbn [args_ok] in Hok. apply andb_true_iff in Hok. destruct Hok as [Ha Hok].
    destruct n as [| n]; cbn [nth_error] in *.
    + injection Hn as -> ->. eauto.
    + eauto.
Qed.



Lemma single_of_SelectOptions (b : bool) (v : val) :
  conforms (SelectOptions (TBoolLit b)) v = true -> get "single" v = Some (VBool b).
Proof.
  unfold SelectOptions. rewrite conforms_named. intros H.
  apply conforms_inter in H. destruct H as [_ H].
  read (conforms_req "single") in H as (x & Hx & Hb).
  apply conforms_boollit in Hb. now subst.
Qed.

Lemma single_of_MultiOptions (b : bool) (v : val) :
  conforms (MultiOptions (TBoolLit b)) v = true -> get "single" v = Some (VBool b).
Proof.
  unfold MultiOptions. rewrite conforms_named. intros H.
  apply conforms_inter in H. destruct H as [_ H].
  read (conforms_req "single") in H as (x & Hx & Hb).
  apply conforms_boollit in Hb. now subst.
Qed.

Lemma prop_ok_covariant (ps : list (string * val)) (k : string) (T U : ty) :
  (forall x, conforms T x = true -> conforms U x = true) ->
  prop_ok ps (req k T) = true -> prop_ok ps (req k U) = true.
Proof.
  intros HTU. unfold prop_ok, req. destruct (assoc k ps) as [x |]; [| trivial].
  rewrite !andb_false_l, !orb_false_r. apply HTU.
Qed.

(** X1.  [ShortOptions] declares every property of [LongOptions]: a bag
    that [short] or [long] accepts is also a [LongOptions] and an
    [Options]. *)
Theorem ShortOptions_is_LongOptions (v : val) :
  conforms ShortOptions v = true ->
  conforms LongOptions v = true /\ conforms Options v = true.
Proof.
  intros H. unfold ShortOptions in H. rewrite conforms_named in H.
  apply conforms_inter in H. destruct H as [HO H]. split; [| exact HO].
  unfold LongOptions. rewrite conforms_named.
  change (conforms Options v && conforms (TObject [req "value" TBoolean]) v = true).
  rewrite HO. cbn [andb].
  eapply conforms_fewer_props; [| exact H].
  intros p Hp. split_in Hp. in_props.
Qed.

Lemma ShortOptions_is_LongOptions_witness :
  conforms LongOptions short_options = true /\ conforms Options short_options = true.
Proof. exact (ShortOptions_is_LongOptions short_options eq_refl). Defined.

(** X2.  Whatever bag an operation of [Context] accepts for a parameter
    built on [Options] is itself an [Options]: it can be handed on to
    [hidden] and [statement], whose [options] parameter is [Options]. *)
Theorem accepted_bag_is_Options
    (name : string) (sig : Signature) (T : ty) (pname : string) (pty : ty) (v : val) :
  In (name, sig) Context ->
  In (pname, pty) (params (instantiate sig T)) ->
  mentions "Options" pty = true ->
  conforms pty v = true ->
  conforms Options v = true
  /\ param_type "options" hidden = Some Options
  /\ param_type "options" statement = Some Options.
Proof.
  intros Hop Hp Hm Hc. split; [| split; reflexivity].
  split_in Hop; split_in Hp; cbn in Hm; try discriminate Hm;
    solve [ eapply extension_is_Options; exact Hc | exact Hc ].
Qed.

Lemma accepted_bag_is_Options_witness :
  conforms Options (payment_options [line_item 500]) = true.
Proof.
  refine (proj1 (accepted_bag_is_Options
            "payment" (Plain payment) TBoolean "options" PaymentOptions
            (payment_options [line_item 500]) _ _ eq_refl eq_refl)).
  - cbn; auto 10.
  - cbn; auto.
Defined.

(** X3.  [MultiOptions<T>] declares every property of [SelectOptions<T>]:
    a bag accepted by [multi] is accepted by [select] at the same type
    argument. *)
Theorem MultiOptions_is_SelectOptions (T : ty) (v : val) :
  conforms (MultiOptions T) v = true -> conforms (SelectOptions T) v = true.
Proof.
  unfold MultiOptions, SelectOptions. rewrite !conforms_named. intros H.
  apply conforms_inter in H. destruct H as [HO H].
  change (conforms Options v && conforms (TObject [req "single" T]) v = true).
  rewrite HO. cbn [andb].
  eapply conforms_fewer_props; [| exact H].
  intros p Hp. destruct Hp as [<- | []]. now left.
Qed.

Lemma MultiOptions_is_SelectOptions_witness :
  conforms (SelectOptions (TBoolLit false)) (multi_options false) = true.
Proof. exact (MultiOptions_is_SelectOptions (TBoolLit false) (multi_options false) eq_refl). Defined.



(** X5.  At the type argument [boolean] (a [single] that is not known to
    be [true] or [false]) the conditional type distributes: both a
    [Choice] and an array of [Choice] are admitted as the resolved value of
    [select] and of [multi]. *)
Theorem boolean_admits_both_shapes (x : val) :
  conforms Choice x = true \/ conforms (TArray Choice) x = true ->
  conforms (result (select TBoolean)) (VPromise x) = true
  /\ conforms (result (multi TBoolean)) (VPromise x) = true.
Proof.
  intros H.
  assert (Hu : conforms Choice x || conforms (TArray Choice) x = true).
  { apply orb_true_iff. exact H. }
  split; exact Hu.
Qed.

Lemma boolean_admits_both_shapes_witness :
  conforms (result (select TBoolean)) (VPromise choice_red) = true
  /\ conforms (result (multi TBoolean)) (VPromise choice_red) = true.
Proof. exact (boolean_admits_both_shapes choice_red (or_introl eq_refl)). Defined.

(** X6.  A bag fixes the literal type argument: no value is at once a
    [SelectOptions<true>] and a [SelectOptions<false>], nor a
    [MultiOptions<true>] and a [MultiOptions<false>]. *)
Theorem single_determines_type_argument (b1 b2 : bool) (v : val) :
  (conforms (SelectOptions (TBoolLit b1)) v = true
   /\ conforms (SelectOptions (TBoolLit b2)) v = true)
  \/ (conforms (MultiOptions (TBoolLit b1)) v = true
      /\ conforms (MultiOptions (TBoolLit b2)) v = true) ->
  b1 = b2.
Proof.
  intros [[H1 H2] | [H1 H2]].
  - apply single_of_SelectOptions in H1, H2. congruence.
  - apply single_of_MultiOptions in H1, H2. congruence.
Qed.

Lemma single_determines_type_argument_witness : true = true.
Proof.
  exact (single_determines_type_argument true true (select_options true)
           (or_introl (conj eq_refl eq_refl))).
Defined.

(** X7.  [SelectOptions] and [MultiOptions] are covariant in their type
    parameter: when every value of [T] is a value of [U], a bag for [T] is
    a bag for [U]. *)
Theorem options_covariant (T U : ty) (v : val) :
  (forall x, conforms T x = true -> conforms U x = true) ->
  (conforms (SelectOptions T) v = true -> conforms (SelectOptions U) v = true)
  /\ (conforms (MultiOptions T) v = true -> conforms (MultiOptions U) v = true).
Proof.
  intros HTU. unfold SelectOptions, MultiOptions. rewrite !conforms_named. split; intros H;
    apply conforms_inter in H; destruct H as [HO H];
    destruct (conforms_object_inv _ _ H) as [ps ->];
    apply andb_true_iff; (split; [exact HO |]);
    rewrite conforms_object in *; cbn [forallb] in *;
    apply andb_true_iff in H; destruct H as [H1 H2];
    apply andb_true_iff; (split; [| exact H2]);
    exact (prop_ok_covariant _ _ _ _ HTU H1).
Qed.

Lemma options_covariant_witness :
  conforms (SelectOptions TBoolean) (select_options true) = true.
Proof.
  refine (proj1 (options_covariant (TBoolLit true) TBoolean (select_options true) _) eq_refl).
  intros x. destruct x; simpl; congruence.
Defined.

Lemma Headers_entries (h : val) (k : string) (x : val) :
  conforms Headers h = true -> get k h = Some x -> exists s, x = VStr s.
Proof.
  unfold Headers. rewrite conforms_named. destruct h; cbn [conforms get]; try discriminate.
  intros Hall Hk. apply assoc_In in Hk. rewrite forallb_forall in Hall.
  apply conforms_string. exact (Hall _ Hk).
Qed.

(** X8.  [Headers] is a string-indexed map of strings: in the [headers]
    of a [FetchOptions] and of a [Response], whatever name is read gives a
    string when it gives anything. *)
Theorem headers_hold_strings (v h : val) (k : string) (x : val) :
  conforms FetchOptions v = true \/ conforms Response v = true ->
  get "headers" v = Some h -> get k h = Some x ->
  exists s, x = VStr s.
Proof.
  intros Hv Hh Hk. apply (Headers_entries h k); [| exact Hk].
  destruct Hv as [Hv | Hv];
    [unfold FetchOptions in Hv | unfold Response in Hv];
    rewrite conforms_named in Hv;
    read (conforms_req "headers") in Hv as (h' & Hh' & Hc);
    congruence.
Qed.

Lemma headers_hold_strings_witness : exists s, VStr "text/plain" = VStr s.
Proof.
  exact (headers_hold_strings a_response (VObj [("content-type", VStr "text/plain")])
           "content-type" (VStr "text/plain") (or_intror eq_refl) eq_refl eq_refl).
Defined.

(** X9.  What [fetch] resolves to is a [Response] object: its body is the
    string [text], [ok] and [redirected] are booleans and [status] is a
    number. *)
Theorem fetch_resolves_to_Response (r : val) :
  conforms (result fetch) r = true ->
  exists resp t o d n,
    r = VPromise resp
    /\ get "text" resp = Some (VStr t)
    /\ get "ok" resp = Some (VBool o)
    /\ get "redirected" resp = Some (VBool d)
    /\ get "status" resp = Some (VNum n).
Proof.
  intros H. apply conforms_promise in H. destruct H as (resp & -> & H).
  unfold Response in H. rewrite conforms_named in H.
  read (get_req_string "text") in H as [t Ht].
  read (get_req_boolean "ok") in H as [o Ho].
  read (get_req_boolean "redirected") in H as [d Hd].
  read (conforms_req "status") in H as (x & Hx & Hn).
  apply conforms_number in Hn. destruct Hn as [n ->].
  exists resp, t, o, d, n. auto 6.
Qed.

Lemma fetch_resolves_to_Response_witness :
  exists resp t o d n,
    VPromise a_response = VPromise resp
    /\ get "text" resp = Some (VStr t)
    /\ get "ok" resp = Some (VBool o)
    /\ get "redirected" resp = Some (VBool d)
    /\ get "status" resp = Some (VNum n).
Proof. exact (fetch_resolves_to_Response (VPromise a_response) eq_refl). Defined.

(** X10.  The [choices] argument of [select] and of [multi] must be an
    array, and each of its elements a string or a [Choice]; a number, a
    boolean or [null] among the choices is rejected. *)
Theorem choices_only_strings_and_Choices (T : ty) (ct : ty) (v : val) :
  param_type "choices" (select T) = Some ct \/ param_type "choices" (multi T) = Some ct ->
  conforms ct v = true ->
  exists l, v = VArr l
            /\ Forall (fun c => (exists s, c = VStr s) \/ conforms Choice c = true) l.
Proof.
  intros Hct Hc.
  assert (ct = TArray (TUnion TString Choice)) as ->
    by (destruct Hct as [Hct | Hct]; cbn in Hct; congruence).
  apply conforms_array in Hc. destruct Hc as (l & -> & Hl).
  exists l. split; [reflexivity |].
  eapply Forall_impl; [| exact Hl]. cbn beta. intros c Hu.
  apply conforms_union in Hu. destruct Hu as [Hs | HC]; [left | right; exact HC].
  now apply conforms_string.
Qed.

Lemma choices_only_strings_and_Choices_witness :
  exists l, VArr [VStr "Blue"; choice_red] = VArr l
            /\ Forall (fun c => (exists s, c = VStr s) \/ conforms Choice c = true) l.
Proof.
  exact (choices_only_strings_and_Choices (TBoolLit true) (TArray (TUnion TString Choice))
           (VArr [VStr "Blue"; choice_red]) (or_introl eq_refl) eq_refl).
Defined.

(** X11.  The type of [imageUrls] is an array of strings of any length:
    a [PaymentLineItem] stays one whatever list of URLs is written over
    its [imageUrls], the "up to 8" of the comment not being part of the
    type. *)
Theorem imageUrls_of_any_length (v : val) (urls : list string) :
  conforms PaymentLineItem v = true ->
  conforms PaymentLineItem (spread v (VObj [("imageUrls", VArr (map VStr urls))])) = true.
Proof.
  intros Hc. unfold PaymentLineItem in *. rewrite conforms_named in *.
  destruct (conforms_object_inv _ _ Hc) as [ps ->].
  cbn [spread app]. rewrite conforms_object, forallb_forall in *.
  intros p Hin. pose proof (Hc p Hin) as Hp.
  split_in Hin; cbn in Hp |- *; try exact Hp.
  now rewrite strings_conform.
Qed.

Lemma imageUrls_of_any_length_witness :
  conforms PaymentLineItem
    (spread (line_item 1999) (VObj [("imageUrls", VArr (map VStr nine_urls))])) = true
  /\ List.length nine_urls = 9.
Proof.
  split; [| reflexivity].
  exact (imageUrls_of_any_length (line_item 1999) nine_urls eq_refl).
Defined.

(** X12.  The items of a payment request have the type of the line items
    of a payment outcome: the [items] of any [PaymentOptions] bag, put
    under [lineItems] with one of the three statuses and a string [id],
    make a [PaymentStatus]. *)
Theorem requested_items_fit_PaymentStatus (v : val) (s id : string) :
  conforms PaymentOptions v = true ->
  In s ["successful"; "stripe-not-set-up"; "failed"] ->
  exists c items,
    get "currency" v = Some (VStr c)
    /\ get "items" v = Some (VArr items)
    /\ Forall (fun it => conforms PaymentLineItem it = true) items
    /\ conforms PaymentStatus
         (VObj [("status", VStr s); ("id", VStr id); ("lineItems", VArr items)]) = true.
Proof.
  intros Hc Hs. unfold PaymentOptions in Hc. rewrite conforms_named in Hc.
  apply conforms_inter in Hc. destruct Hc as [_ Hc].
  read (get_req_string "currency") in Hc as [c Hcur].
  read (conforms_req "items") in Hc as (x & Hx & Hi).
  pose proof Hi as Hall. apply conforms_array in Hall. destruct Hall as (items & -> & Hall).
  exists c, items. repeat (split; [assumption |]).
  change (conforms (TArray PaymentLineItem) (VArr items) = true) in Hi.
  unfold PaymentStatus. rewrite conforms_named, conforms_object.
  cbn [forallb prop_ok req assoc String.eqb Ascii.eqb Bool.eqb].
  rewrite Hi. split_in Hs; reflexivity.
Qed.

Lemma requested_items_fit_PaymentStatus_witness :
  exists c items,
    get "currency" (payment_options [line_item 500]) = Some (VStr c)
    /\ get "items" (payment_options [line_item 500]) = Some (VArr items)
    /\ Forall (fun it => conforms PaymentLineItem it = true) items
    /\ conforms PaymentStatus
         (VObj [("status", VStr "failed"); ("id", VStr "pi_2"); ("lineItems", VArr items)])
       = true.
Proof.
  apply (requested_items_fit_PaymentStatus (payment_options [line_item 500]) "failed" "pi_2").
  - reflexivity.
  - simpl; auto.
Defined.

(** X13.  For [rating], the [max] option is declared [boolean] and the
    answer a string: a bag accepted by [rating] carries a boolean under
    [max], never a number, and the promise is fulfilled with a string. *)
Theorem rating_max_boolean_result_string (opts r : val) :
  conforms RatingOptions opts = true ->
  conforms (result rating) r = true ->
  param_type "options" rating = Some RatingOptions
  /\ (exists b, get "max" opts = Some (VBool b))
  /\ (forall n, get "max" opts <> Some (VNum n))
  /\ exists s, r = VPromise (VStr s).
Proof.
  intros Ho Hr. split; [reflexivity |].
  unfold RatingOptions in Ho. rewrite conforms_named in Ho.
  apply conforms_inter in Ho. destruct Ho as [_ Ho].
  read (get_req_boolean "max") in Ho as [b Hb].
  split; [eauto |]. split; [intros n; rewrite Hb; discriminate |].
  apply conforms_promise in Hr. destruct Hr as (x & -> & Hx).
  apply conforms_string in Hx. destruct Hx as [s ->]. eauto.
Qed.

Lemma rating_max_boolean_result_string_witness :
  exists s, VPromise (VStr "4") = VPromise (VStr s).
Proof.
  exact (proj2 (proj2 (proj2 (rating_max_boolean_result_string
                                rating_options (VPromise (VStr "4")) eq_refl eq_refl)))).
Defined.

Lemma any_conforms (args : list val) : forallb (conforms TAny) args = true.
Proof. induction args; cbn [forallb conforms andb]; [reflexivity | exact IHargs]. Qed.

(** X14.  [log] and [error] are variadic over [any]: every argument list,
    the empty one included, is accepted. *)
Theorem log_accepts_every_call (args : list val) :
  accepts log args = true /\ accepts error args = true.
Proof. split; apply any_conforms. Qed.

(** X15.  [interp] and [i] accept exactly the calls [interpolate]
    accepts, and those are the calls with one argument, of any kind. *)
Theorem interpolate_takes_one_argument (args : list val) :
  accepts interp args = accepts interpolate args
  /\ accepts i args = accepts interpolate args
  /\ (accepts interpolate args = true <-> exists a, args = [a]).
Proof.
  repeat (split; [reflexivity |]). split.
  - destruct args as [| a [| b args]]; try discriminate. eauto.
  - intros [a ->]. reflexivity.
Qed.

(** X16.  A question cannot be asked without its options: an accepted
    call of [short], [long], [rating], [select], [multi], [payment],
    [hidden] or [statement] has exactly the declared number of arguments,
    starts with a string and ends with a bag that is an [Options]. *)
Theorem question_call_ends_with_Options
    (name : string) (sig : Signature) (T : ty) (args : list val) :
  In (name, sig) Context ->
  In name question_names ->
  accepts (instantiate sig T) args = true ->
  2 <= List.length args
  /\ List.length args = List.length (params (instantiate sig T))
  /\ (exists q, nth_error args 0 = Some (VStr q))
  /\ conforms Options (last args VUndefined) = true.
Proof.
  intros Hop Hq Hacc. unfold accepts in Hacc.
  split_in Hop; split_in Hq;
    cbn [instantiate params rest short long rating select multi payment hidden statement]
      in Hacc |- *;
    pose proof (args_ok_length _ _ Hacc) as Hlen; cbn [List.length] in Hlen;
    destruct args as [| a1 [| a2 [| a3 [| a4 args]]]]; try discriminate Hlen;
    cbn [args_ok] in Hacc; split_andb;
    (split; [cbn [List.length]; auto with arith |]);
    (split; [reflexivity |]);
    (split;
     [ match goal with
       | H : conforms TString a1 = true |- _ =>
           apply conforms_string in H; destruct H as [q ->]; exists q; reflexivity
       end
     | cbn [last];
       first [ eapply extension_is_Options; eassumption | assumption ] ]).
Qed.

Lemma question_call_ends_with_Options_witness :
  conforms Options (last [VStr "Colour?"; VArr [VStr "Blue"; choice_red]; select_options true]
                         VUndefined) = true.
Proof.
  assert (Hin : In ("select", Generic TBoolean select) Context) by (cbn; auto 10).
  assert (Hq : In "select" question_names) by (cbn; auto 10).
  exact (proj2 (proj2 (proj2
           (question_call_ends_with_Options "select" (Generic TBoolean select) (TBoolLit true)
              [VStr "Colour?"; VArr [VStr "Blue"; choice_red]; select_options true]
              Hin Hq eq_refl)))).
Defined.

(** X17.  The operations split in two: [log], [error], [interpolate],
    [interp], [i] and [param] never return a promise; every other
    operation of [Context], at every type argument, returns nothing but a
    promise. *)
Theorem promise_or_plain_result (name : string) (sig : Signature) (T : ty) (r : val) :
  In (name, sig) Context ->
  conforms (result (instantiate sig T)) r = true ->
  (In name sync_names /\ forall x, r <> VPromise x)
  \/ (~ In name sync_names /\ exists x, r = VPromise x).
Proof.
  intros Hop Hc.
  split_in Hop; cbn [instantiate result short long rating select multi payment hidden
                       statement fetch log error interpolate interp i param] in Hc;
    first
      [ right; split;
        [ cbn; intuition discriminate
        | apply conforms_promise in Hc; destruct Hc as (x & -> & _); eauto ]
      | left; split;
        [ cbn; auto 10
        | intros x ->; discriminate Hc ] ].
Qed.

Lemma promise_or_plain_result_witness :
  (In "param" sync_names /\ forall x, VNull <> VPromise x)
  \/ (~ In "param" sync_names /\ exists x, VNull = VPromise x).
Proof.
  assert (Hin : In ("param", Plain param) Context) by (cbn; auto 20).
  exact (promise_or_plain_result "param" (Plain param) TBoolean VNull Hin eq_refl).
Defined.

(** X18.  [param] accepts exactly the calls with one argument that is a
    string, and its result type holds exactly the strings and [null]: an
    absent query-string key is reported as [null]. *)
Theorem param_takes_key_returns_string_or_null (args : list val) (r : val) :
  (accepts param args = true <-> exists k, args = [VStr k])
  /\ (conforms (result param) r = true <-> (r = VNull \/ exists s, r = VStr s)).
Proof.
  split; split.
  - intros Ha. unfold accepts in Ha. cbn [param params rest] in Ha.
    destruct args as [| a [| b args]]; cbn [args_ok] in Ha;
      rewrite ?andb_false_r, ?andb_true_r in Ha; try discriminate Ha.
    apply conforms_string in Ha. destruct Ha as [k ->]. eauto.
  - intros [k ->]. reflexivity.
  - intros Hr. apply conforms_union in Hr. destruct Hr as [Hr | Hr].
    + right. now apply conforms_string.
    + left. destruct r; try discriminate Hr. reflexivity.
  - intros [-> | [s ->]]; reflexivity.
Qed.

(** X19.  No question goes without a complete banner: the bag an
    operation of [Context] accepts for a parameter built on [Options]
    carries a [banner] with all four of [unsplash], [full], [imageUrl] and
    [videoUrl], each a string ([full] included). *)
Theorem every_bag_carries_a_full_banner
    (name : string) (sig : Signature) (T : ty) (pname : string) (pty : ty) (v : val) :
  In (name, sig) Context ->
  In (pname, pty) (params (instantiate sig T)) ->
  mentions "Options" pty = true ->
  conforms pty v = true ->
  exists bn u f i w,
    get "banner" v = Some bn
    /\ get "unsplash" bn = Some (VStr u)
    /\ get "full" bn = Some (VStr f)
    /\ get "imageUrl" bn = Some (VStr i)
    /\ get "videoUrl" bn = Some (VStr w).
Proof.
  intros Hop Hp Hm Hc.
  assert (HO : conforms Options v = true).
  { split_in Hop; split_in Hp; cbn in Hm; try discriminate Hm;
      solve [ eapply extension_is_Options; exact Hc | exact Hc ]. }
  unfold Options in HO. rewrite conforms_named in HO.
  read (conforms_req "banner" BannerOptions) in HO as (bn & Hbn & Hb).
  unfold BannerOptions in Hb. rewrite conforms_named in Hb.
  read (get_req_string "unsplash") in Hb as [u Hu].
  read (get_req_string "full") in Hb as [f Hf].
  read (get_req_string "imageUrl") in Hb as [i Hi].
  read (get_req_string "videoUrl") in Hb as [w Hw].
  exists bn, u, f, i, w. auto 6.
Qed.

Lemma every_bag_carries_a_full_banner_witness :
  exists bn u f i w,
    get "banner" rating_options = Some bn
    /\ get "unsplash" bn = Some (VStr u)
    /\ get "full" bn = Some (VStr f)
    /\ get "imageUrl" bn = Some (VStr i)
    /\ get "videoUrl" bn = Some (VStr w).
Proof.
  refine (every_bag_carries_a_full_banner
            "rating" (Plain rating) TBoolean "options" RatingOptions rating_options
            _ _ eq_refl eq_refl).
  - cbn; auto 10.
  - cbn; auto.
Defined.



(** X21.  [fetch] takes exactly a string and a complete [FetchOptions]:
    each of the six properties is present in the bag of an accepted call,
    and the call is rejected once any of them is deleted from it. *)
Theorem fetch_needs_every_option (args : list val) (k : string) :
  accepts fetch args = true ->
  In k FetchOptions_names ->
  exists url opts,
    args = [VStr url; opts]
    /\ conforms FetchOptions opts = true
    /\ (exists x, get k opts = Some x)
    /\ accepts fetch [VStr url; omit k opts] = false.
Proof.
  intros Ha Hk. unfold accepts in Ha. cbn [fetch params rest] in Ha.
  pose proof (args_ok_length _ _ Ha) as Hlen. cbn [List.length] in Hlen.
  destruct args as [| a1 [| a2 [| a3 args]]]; try discriminate Hlen.
  cbn [args_ok] in Ha. split_andb.
  match goal with
  | H : conforms TString a1 = true |- _ =>
      apply conforms_string in H; destruct H as [url ->]
  end.
  exists url, a2. split; [reflexivity |]. split; [assumption |].
  assert (Hobj : conforms FetchOptions a2 = true) by assumption.
  unfold FetchOptions in Hobj. rewrite conforms_named in Hobj.
  assert (Hmiss : forall t fs, In (req k t) fs -> conforms (TObject fs) (omit k a2) = false).
  { intros t fs Hin. apply (missing_req k t); [exact Hin | apply get_omit]. }
  unfold accepts. cbn [fetch params rest args_ok]. unfold FetchOptions.
  rewrite conforms_named.
  split_in Hk;
    match goal with
    | |- (exists x, get ?k _ = _) /\ _ =>
        match type of Hobj with
        | context [req k ?t] =>
            split;
            [ edestruct (conforms_req k t) as (x & Hx & _); [| exact Hobj |];
              [in_props | eauto]
            | erewrite (Hmiss t); [reflexivity | in_props] ]
        end
    end.
Qed.

Lemma fetch_needs_every_option_witness :
  exists url opts,
    [VStr "https://example.org/ping"; fetch_options "GET" "follow"] = [VStr url; opts]
    /\ conforms FetchOptions opts = true
    /\ (exists x, get "body" opts = Some x)
    /\ accepts fetch [VStr url; omit "body" opts] = false.
Proof.
  apply (fetch_needs_every_option
           [VStr "https://example.org/ping"; fetch_options "GET" "follow"] "body").
  - reflexivity.
  - simpl; auto 10.
Defined.
